(** * NewsTool: cached multi-provider search with fallback, and answer synthesis

    A shallow embedding of [src/agent_system/tools/news_tool.py].

    Python code that performs I/O and may raise is written in the monad
    [Py]: a computation takes the current [World] and yields either a raised
    exception or a returned value, together with the world it leaves behind.
    A raised exception keeps the side effects performed before it.

    The outside world is an [Env] of oracles: what the n-th HTTP request to a
    search endpoint answers and how long it takes, and what the n-th
    chat-completion request answers.  The [World] records the clock, the
    contents of the disk cache and the log of external requests issued. *)

From stdpp Require Import gmap strings list fin_maps.

#[local] Set Warnings "-register-all".

(** ** Values decoded from a JSON body *)

(** What [response.json()] returns.  Numbers are integers here; the code
    under study never computes with them. *)
Inductive json : Type :=
| JNull
| JBool (b : bool)
| JNum (n : Z)
| JStr (s : string)
| JArr (items : list json)
| JObj (fields : list (string * json)).

(** Python exceptions that the modelled code can meet.  The first three are
    subclasses of [requests.RequestException]. *)
Inductive exn : Type :=
| ConnectionError            (* requests.get: transport failure, timeout *)
| HTTPError (status : N)     (* response.raise_for_status() *)
| JSONDecodeError            (* response.json() on a body that is not JSON *)
| KeyError (key : string)
| TypeError
| AttributeError
| IndexError
| APIError.                  (* the chat-completion client failed *)

Definition is_RequestException (e : exn) : bool :=
  match e with
  | ConnectionError | HTTPError _ | JSONDecodeError => true
  | _ => false
  end.

(** [except Exception] catches every exception of the model. *)
Definition is_Exception (e : exn) : bool := true.

(** A JSON object decoded into a dict: a later duplicate of a key wins. *)
Fixpoint dict_lookup (key : string) (fields : list (string * json)) : option json :=
  match fields with
  | [] => None
  | (k, v) :: rest =>
      match dict_lookup key rest with
      | Some v' => Some v'
      | None => if String.eqb k key then Some v else None
      end
  end.

(** [d.get(key, dflt)]: only a dict has the method. *)
Definition py_get (d : json) (key : string) (dflt : json) : exn + json :=
  match d with
  | JObj fields => inr (default dflt (dict_lookup key fields))
  | _ => inl AttributeError
  end.

(** [d[key]] with a string key: a dict answers or raises [KeyError]; a list
    or a string wants an integer index, anything else is not subscriptable. *)
Definition py_subscript (d : json) (key : string) : exn + json :=
  match d with
  | JObj fields =>
      match dict_lookup key fields with
      | Some v => inr v
      | None => inl (KeyError key)
      end
  | _ => inl TypeError
  end.

(** The keys of a dict in insertion order, each once. *)
Definition dict_keys (fields : list (string * json)) : list string :=
  rev (remove_dups (rev (fields.*1))).

(** [for item in v]: a list yields its items, a string its characters, a
    dict its keys; nothing else is iterable. *)
Definition py_iter (v : json) : exn + list json :=
  match v with
  | JArr items => inr items
  | JStr s => inr ((fun c => JStr (String c EmptyString)) <$> String.list_ascii_of_string s)
  | JObj fields => inr (JStr <$> dict_keys fields)
  | _ => inl TypeError
  end.

(** ** Search results *)

(** The dict [{'name': .., 'url': .., 'snippet': ..}] that both adapters
    build; the values are whatever the provider sent under those fields. *)
Record SearchResult : Type := mkResult {
  name : json;
  url : json;
  snippet : json
}.

(** Exceptions in pure code: [inl] raises, [inr] returns. *)
Definition ebind {A B : Type} (m : exn + A) (k : A -> exn + B) : exn + B :=
  match m with
  | inl e => inl e
  | inr x => k x
  end.

(** A list comprehension whose element expression may raise: the first
    exception ends it. *)
Fixpoint comprehension {A B : Type} (f : A -> exn + B) (items : list A) : exn + list B :=
  match items with
  | [] => inr []
  | x :: rest =>
      ebind (f x) (fun y => ebind (comprehension f rest) (fun ys => inr (y :: ys)))
  end.

(** The element expression of [search_bing]. *)
Definition bing_item (result : json) : exn + SearchResult :=
  ebind (py_subscript result "name") (fun n =>
  ebind (py_subscript result "url") (fun u =>
  ebind (py_subscript result "snippet") (fun s =>
  inr (mkResult n u s)))).

(** The element expression of [search_google]. *)
Definition google_item (item : json) : exn + SearchResult :=
  ebind (py_subscript item "title") (fun n =>
  ebind (py_subscript item "link") (fun u =>
  ebind (py_subscript item "snippet") (fun s =>
  inr (mkResult n u s)))).

(** [[... for result in body.get('webPages', {}).get('value', [])]] *)
Definition bing_results (body : json) : exn + list SearchResult :=
  ebind (py_get body "webPages" (JObj [])) (fun web_pages =>
  ebind (py_get web_pages "value" (JArr [])) (fun value =>
  ebind (py_iter value) (comprehension bing_item))).

(** [[... for item in body.get('items', [])]] *)
Definition google_results (body : json) : exn + list SearchResult :=
  ebind (py_get body "items" (JArr [])) (fun items =>
  ebind (py_iter items) (comprehension google_item)).

(** ** The outside world *)

Inductive provider : Type := Bing | Google.

(** What [requests.get] gives back: no response at all, or a response with a
    status code and a body that decodes as JSON or does not. *)
Inductive http_result : Type :=
| NoResponse
| Response (status : N) (body : option json).

Record http_reply : Type := mkHttpReply {
  http_took : N;              (* seconds the request blocked *)
  http_result_of : http_result
}.

(** [completion.choices[0].message]: a dict, with or without the key
    'content', or an object, with or without the attribute; the content is a
    string or [None]. *)
Inductive message : Type :=
| MessageDict (content : option (option string))
| MessageObject (content : option (option string)).

Inductive llm_result : Type :=
| LlmFailure
| Completion (choices : list message).

Record llm_reply : Type := mkLlmReply {
  llm_took : N;
  llm_result_of : llm_result
}.

(** The environment: the answer to the n-th request (counted from 0) to each
    search endpoint, given the query, and to the n-th chat-completion
    request, given the prompt. *)
Record Env : Type := mkEnv {
  http_get : provider -> nat -> string -> http_reply;
  chat_create : nat -> string -> llm_reply
}.

(** The state the tool reads and writes: the clock (in seconds), the cache
    (each key with its value and its expiry time) and the requests sent. *)
Record World : Type := mkWorld {
  now : N;
  cache : gmap string (list SearchResult * N);
  bing_calls : list string;
  google_calls : list string;
  llm_calls : list string
}.

Definition calls (p : provider) (w : World) : list string :=
  match p with
  | Bing => bing_calls w
  | Google => google_calls w
  end.

(** Time passes. *)
Definition advance (dt : N) (w : World) : World :=
  mkWorld (now w + dt) (cache w) (bing_calls w) (google_calls w) (llm_calls w).

Definition log_call (p : provider) (query : string) (w : World) : World :=
  match p with
  | Bing => mkWorld (now w) (cache w) (bing_calls w ++ [query]) (google_calls w) (llm_calls w)
  | Google => mkWorld (now w) (cache w) (bing_calls w) (google_calls w ++ [query]) (llm_calls w)
  end.

Definition log_llm (prompt : string) (w : World) : World :=
  mkWorld (now w) (cache w) (bing_calls w) (google_calls w) (llm_calls w ++ [prompt]).

Definition with_cache (c : gmap string (list SearchResult * N)) (w : World) : World :=
  mkWorld (now w) c (bing_calls w) (google_calls w) (llm_calls w).

(** ** The monad of Python computations *)

Definition Py (A : Type) : Type := World -> (exn + A) * World.

Definition ret {A : Type} (x : A) : Py A := fun w => (inr x, w).

Definition raise {A : Type} (e : exn) : Py A := fun w => (inl e, w).

Definition bind {A B : Type} (m : Py A) (k : A -> Py B) : Py B :=
  fun w =>
    match m w with
    | (inl e, w') => (inl e, w')
    | (inr x, w') => k x w'
    end.

(** A pure step that may raise. *)
Definition lift {A : Type} (r : exn + A) : Py A := fun w => (r, w).

(** [try: m  except <class> as e: handler e] *)
Definition try_except {A : Type} (m : Py A) (caught : exn -> bool) (handler : exn -> Py A) : Py A :=
  fun w =>
    match m w with
    | (inl e, w') => if caught e then handler e w' else (inl e, w')
    | (inr x, w') => (inr x, w')
    end.

Declare Scope py_scope.
Delimit Scope py_scope with py.
Notation "x <- m ;; k" := (bind m (fun x => k))
  (at level 100, m at next level, right associativity) : py_scope.
Notation "m ;;; k" := (bind m (fun _ => k))
  (at level 100, right associativity) : py_scope.
Local Open Scope py_scope.

(** ** String helpers *)

Definition nl : string := String (Ascii.ascii_of_nat 10) EmptyString.

(** [sep.join(parts)] *)
Fixpoint join (sep : string) (parts : list string) : string :=
  match parts with
  | [] => ""
  | [p] => p
  | p :: rest => p +:+ sep +:+ join sep rest
  end.

(** *** Text as code points

    A Python [str] is a sequence of Unicode code points; here it is held as
    the bytes of its UTF-8 encoding.  [str.strip()] works on code points, so
    the bytes are first cut into code points.  A byte that is not part of a
    well-formed sequence (which no encoded [str] contains) counts as the
    code point of its own value. *)

Definition bytes_of (s : string) : list N :=
  Ascii.N_of_ascii <$> String.list_ascii_of_string s.

Definition string_of (bytes : list N) : string :=
  String.string_of_list_ascii (Ascii.ascii_of_N <$> bytes).

(** A continuation byte, 10xxxxxx. *)
Definition is_continuation (b : N) : bool :=
  (128 <=? b)%N && (b <? 192)%N.

(** The code point that starts with byte [b0], followed by [rest], and the
    number of bytes that spell it: one to four for a well-formed sequence
    (shortest form, no surrogate, at most U+10FFFF), one otherwise. *)
Definition head_code_point (b0 : N) (rest : list N) : N * nat :=
  let lone := (b0, 1%nat) in
  if (b0 <? 128)%N then lone
  else if (194 <=? b0)%N && (b0 <? 224)%N then
    match rest with
    | b1 :: _ =>
        if is_continuation b1 then (((b0 - 192) * 64 + (b1 - 128))%N, 2%nat) else lone
    | _ => lone
    end
  else if (224 <=? b0)%N && (b0 <? 240)%N then
    match rest with
    | b1 :: b2 :: _ =>
        let cp := ((b0 - 224) * 4096 + (b1 - 128) * 64 + (b2 - 128))%N in
        if is_continuation b1 && is_continuation b2 && (2048 <=? cp)%N
           && negb ((55296 <=? cp)%N && (cp <? 57344)%N)
        then (cp, 3%nat) else lone
    | _ => lone
    end
  else if (240 <=? b0)%N && (b0 <? 245)%N then
    match rest with
    | b1 :: b2 :: b3 :: _ =>
        let cp := ((b0 - 240) * 262144 + (b1 - 128) * 4096 + (b2 - 128) * 64
                   + (b3 - 128))%N in
        if is_continuation b1 && is_continuation b2 && is_continuation b3
           && (65536 <=? cp)%N && (cp <=? 1114111)%N
        then (cp, 4%nat) else lone
    | _ => lone
    end
  else lone.

(** The code points of a byte sequence, each with the bytes that spell it.
    Every turn consumes at least one byte, so as many turns as there are
    bytes always suffice. *)
Fixpoint code_points_fuel (fuel : nat) (bytes : list N) : list (N * list N) :=
  match fuel, bytes with
  | S fuel', b0 :: rest =>
      let '(cp, n) := head_code_point b0 rest in
      (cp, take n bytes) :: code_points_fuel fuel' (drop n bytes)
  | _, _ => []
  end.

Definition code_points (bytes : list N) : list (N * list N) :=
  code_points_fuel (length bytes) bytes.

(** The code points that [str.isspace()] accepts and [str.strip()]
    removes: U+0009..U+000D, U+001C..U+0020, U+0085, U+00A0, U+1680,
    U+2000..U+200A, U+2028, U+2029, U+202F, U+205F and U+3000. *)
Definition is_space (cp : N) : bool :=
  ((9 <=? cp)%N && (cp <=? 13)%N) || ((28 <=? cp)%N && (cp <=? 32)%N)
  || (cp =? 133)%N || (cp =? 160)%N || (cp =? 5760)%N
  || ((8192 <=? cp)%N && (cp <=? 8202)%N)
  || (cp =? 8232)%N || (cp =? 8233)%N || (cp =? 8239)%N || (cp =? 8287)%N
  || (cp =? 12288)%N.

(** Drop the leading whitespace code points. *)
Fixpoint lstrip (points : list (N * list N)) : list (N * list N) :=
  match points with
  | (cp, spelling) :: rest => if is_space cp then lstrip rest else points
  | [] => []
  end.

(** [s.strip()] *)
Definition py_strip (s : string) : string :=
  string_of (concat ((rev (lstrip (rev (lstrip (code_points (bytes_of s)))))).*2)).

(** ** The cache

    [diskcache.Cache] is a third-party store whose code is not under src/.
    Its three operations that [NewsTool] uses are modelled on a finite map
    from keys to a value and an absolute expiry time. *)

Definition ttl : N := 7 * 24 * 60 * 60.

(** Modelled from the spec: the cache's notion of a usable entry
    (diskcache is not under src/).  An entry is present and unexpired while
    the clock is before its expiry time; an expired entry counts as absent. *)
Definition live (query : string) (w : World) : bool :=
  match cache w !! query with
  | Some (_, expire_time) => (now w <? expire_time)%N
  | None => false
  end.

(** Modelled from the spec: [query in self.cache] (diskcache is not under
    src/).  The lookup of an absent or expired key answers [False]; it does
    not raise. *)
Definition cache_contains (query : string) : Py bool :=
  fun w => (inr (live query w), w).

(** Modelled from the spec: [self.cache[query]] (diskcache is not under
    src/).  Item access raises [KeyError] for an absent or expired key. *)
Definition cache_getitem (query : string) : Py (list SearchResult) :=
  fun w =>
    match cache w !! query with
    | Some (value, expire_time) =>
        if (now w <? expire_time)%N then (inr value, w) else (inl (KeyError query), w)
    | None => (inl (KeyError query), w)
    end.

(** Modelled from the spec: [self.cache.set(query, value, expire=expire)]
    (diskcache is not under src/).  It overwrites, and the entry expires
    [expire] seconds from now. *)
Definition cache_set (query : string) (value : list SearchResult) (expire : N) : Py unit :=
  fun w => (inr tt, with_cache (<[query := (value, (now w + expire)%N)]> (cache w)) w).

(** ** NewsTool *)

Section NewsTool.

Variable env : Env.

(** Python's [str()] of a JSON value that is not a string, as an f-string
    renders it. *)
Variable py_repr : json -> string.

Definition max_retries : nat := 3.

(** [requests.get(endpoint, ...)]: the request is logged, the clock moves
    by the time it took, and a transport failure raises. *)
Definition requests_get (p : provider) (query : string) : Py (N * option json) :=
  fun w =>
    let reply := http_get env p (length (calls p w)) query in
    let w' := advance (http_took reply) (log_call p query w) in
    match http_result_of reply with
    | NoResponse => (inl ConnectionError, w')
    | Response status body => (inr (status, body), w')
    end.

(** [response.raise_for_status()] *)
Definition raise_for_status (response : N * option json) : Py unit :=
  let status := fst response in
  if (400 <=? status)%N && (status <? 600)%N then raise (HTTPError status) else ret tt.

(** [response.json()] *)
Definition response_json (response : N * option json) : Py json :=
  match snd response with
  | Some body => ret body
  | None => raise JSONDecodeError
  end.

Definition search_bing (query : string) : Py (list SearchResult) :=
  try_except
    (response <- requests_get Bing query ;;
     raise_for_status response ;;;
     body <- response_json response ;;
     lift (bing_results body))
    is_RequestException
    (fun e => ret []).

Definition search_google (query : string) : Py (list SearchResult) :=
  try_except
    (response <- requests_get Google query ;;
     raise_for_status response ;;;
     body <- response_json response ;;
     lift (google_results body))
    is_RequestException
    (fun e => ret []).

Definition search_function (p : provider) : string -> Py (list SearchResult) :=
  match p with
  | Bing => search_bing
  | Google => search_google
  end.

Definition cached_search (query : string)
    (search_function : string -> Py (list SearchResult)) : Py (list SearchResult) :=
  hit <- cache_contains query ;;
  if hit : bool then cache_getitem query
  else
    results <- search_function query ;;
    cache_set query results ttl ;;;
    ret results.

(** Truth value of a list. *)
Definition truthy {A : Type} (l : list A) : bool :=
  match l with
  | [] => false
  | _ :: _ => true
  end.

(** The inner loop of [search]: [for _ in range(n)], leaving with
    [Some results] at the first non-empty answer. *)
Fixpoint attempts (n : nat) (api : string -> Py (list SearchResult)) (query : string)
    : Py (option (list SearchResult)) :=
  match n with
  | O => ret None
  | S n' =>
      results <- api query ;;
      if truthy results then ret (Some results) else attempts n' api query
  end.

(** The outer loop of [search]: [for api in apis], then [return []]. *)
Fixpoint try_apis (apis : list (string -> Py (list SearchResult))) (query : string)
    : Py (list SearchResult) :=
  match apis with
  | [] => ret []
  | api :: rest =>
      found <- attempts max_retries api query ;;
      match found with
      | Some results => ret results
      | None => try_apis rest query
      end
  end.

Definition apis : list (string -> Py (list SearchResult)) :=
  [ (fun q => cached_search q search_bing);
    (fun q => cached_search q search_google) ].

Definition search (query : string) : Py (list SearchResult) :=
  try_apis apis query.

(** How an f-string renders a field of a result. *)
Definition py_str (v : json) : string :=
  match v with
  | JStr s => s
  | _ => py_repr v
  end.

Definition source_block (result : SearchResult) : string :=
  "Source:" +:+ nl +:+ "Title: " +:+ py_str (name result) +:+ nl
    +:+ "URL: " +:+ py_str (url result) +:+ nl
    +:+ "Content: " +:+ py_str (snippet result).

Definition make_prompt (question : string) (results : list SearchResult) : string :=
  let sources := join (nl +:+ nl) (source_block <$> results) in
  "Use the following sources to answer the question:" +:+ nl +:+ nl +:+ sources
    +:+ nl +:+ nl +:+ "Question: " +:+ question +:+ nl +:+ nl +:+ "Answer:".

(** [self.client.chat.completions.create(...)] *)
Definition chat_completions_create (prompt : string) : Py (list message) :=
  fun w =>
    let reply := chat_create env (length (llm_calls w)) prompt in
    let w' := advance (llm_took reply) (log_llm prompt w) in
    match llm_result_of reply with
    | LlmFailure => (inl APIError, w')
    | Completion choices => (inr choices, w')
    end.

(** [content.strip()]: [None] has no such method. *)
Definition strip_content (content : option string) : exn + string :=
  match content with
  | Some s => inr (py_strip s)
  | None => inl AttributeError
  end.

Definition missing_question : string := "Error: A question is required.".
Definition unparsable : string := "Unable to parse the response format.".
Definition unable_to_answer : string := "Unable to generate an answer at this time.".

(** [use]: [args] is the tuple of positional arguments. *)
Definition use (args : list string) : Py string :=
  match args with
  | [] => ret missing_question
  | question :: _ =>
      try_except
        (results <- search question ;;
         let prompt := make_prompt question results in
         choices <- chat_completions_create prompt ;;
         response_message <- lift (match choices with
                                   | [] => inl IndexError
                                   | m :: _ => inr m
                                   end) ;;
         match response_message with
         | MessageDict (Some content) => lift (strip_content content)
         | MessageObject (Some content) => lift (strip_content content)
         | _ => ret unparsable
         end)
        is_Exception
        (fun e => ret unable_to_answer)
  end.

End NewsTool.

(** Requests sent to the search endpoints, and all external requests. *)
Definition provider_calls (w : World) : nat :=
  length (bing_calls w) + length (google_calls w).

Definition external_calls (w : World) : nat :=
  provider_calls w + length (llm_calls w).

(** The schema mapping of each adapter. *)
Definition results_of (p : provider) (body : json) : exn + list SearchResult :=
  match p with
  | Bing => bing_results body
  | Google => google_results body
  end.

(** A status that [raise_for_status] lets through. *)
Definition status_ok (status : N) : bool :=
  negb ((400 <=? status)%N && (status <? 600)%N).

(** ** add_website_content *)

(** [d[key] = value] on the fields of a dict: a key already there keeps its
    place and takes the new value, a new key goes last. *)
Definition dict_set (key : string) (value : json) (fields : list (string * json))
    : list (string * json) :=
  if existsb (fun kv => String.eqb kv.1 key) fields
  then (fun kv => if String.eqb kv.1 key then (kv.1, value) else kv) <$> fields
  else fields ++ [(key, value)].

(** [try: m  except <class> as e: handler e] in pure code. *)
Definition etry {A : Type} (m : exn + A) (caught : exn -> bool) (handler : exn -> exn + A)
    : exn + A :=
  match m with
  | inl e => if caught e then handler e else inl e
  | inr x => inr x
  end.

(** [add_website_content(result)], given what [trafilatura.extract(url=u)]
    does for each [u]: it returns the text (or [None]) or raises.  The dict
    is updated in place and handed back; the value returned here is the dict
    as the call leaves it.  The handler's message reads [result['url']]
    again before the dict is returned. *)
Definition add_website_content (extract : json -> exn + json)
    (result : list (string * json)) : exn + list (string * json) :=
  etry
    (ebind (py_subscript (JObj result) "url") (fun u =>
     ebind (extract u) (fun content =>
     inr (dict_set "content" content result))))
    is_Exception
    (fun e => ebind (py_subscript (JObj result) "url") (fun _ => inr result)).

(** ** LLMClient (src/agent_system/core/llm_client.py) *)

(** What the client raises: [ValueError] from the constructor, and from
    [query] the [Exception] that wraps whatever went wrong. *)
Inductive client_exn : Type :=
| ValueError
| LLMQueryFailed (cause : exn).

(** Truth value of an optional string: [None] and the empty string are
    false. *)
Definition truthy_key (k : option string) : bool :=
  match k with
  | Some (String _ _) => true
  | _ => false
  end.

(** [completion.choices[0].message.content]: attribute access, which a dict
    does not offer. *)
Definition message_content_attr (m : message) : exn + option string :=
  match m with
  | MessageObject (Some content) => inr content
  | _ => inl AttributeError
  end.

Module LLMClient.

Record t : Type := mk {
  api_key : string;
  model : string
}.

(** [LLMClient(api_key, model)], given the value of the environment variable
    GROQ_API_KEY: the key is [api_key or os.getenv("GROQ_API_KEY")], and is
    rejected when it is false. *)
Definition init (api_key : option string) (model : string)
    (groq_api_key : option string) : client_exn + t :=
  let key := if truthy_key api_key then api_key else groq_api_key in
  match key with
  | Some k => if truthy_key key then inr (mk k model) else inl ValueError
  | None => inl ValueError
  end.

(** [query(prompt)], given the service's answer to the n-th request: every
    exception of the body is re-raised wrapped. *)
Definition query (create : nat -> string -> llm_reply) (prompt : string)
    : World -> (client_exn + string) * World :=
  fun w =>
    let reply := create (length (llm_calls w)) prompt in
    let w' := advance (llm_took reply) (log_llm prompt w) in
    let body :=
      ebind (match llm_result_of reply with
             | LlmFailure => inl APIError
             | Completion [] => inl IndexError
             | Completion (m :: _) => inr m
             end) (fun m =>
      ebind (message_content_attr m) strip_content) in
    match body with
    | inl e => (inl (LLMQueryFailed e), w')
    | inr answer => (inr answer, w')
    end.

End LLMClient.

(** ** Scenarios

    Concrete environments and worlds on which the code is run below. *)

(** Every request takes one second; each endpoint always answers the same. *)
Definition constant_env (bing google : http_result) (llm : llm_result) : Env :=
  mkEnv
    (fun p _ _ => mkHttpReply 1 match p with Bing => bing | Google => google end)
    (fun _ _ => mkLlmReply 1 llm).

(** Clock at zero, nothing cached, nothing sent. *)
Definition empty_world : World := mkWorld 0 ∅ [] [] [].

(** No scenario renders a value that is not a string. *)
Definition repr_unused : json -> string := fun _ => "".

Definition ok (body : json) : http_result := Response 200 (Some body).

Definition result_T : SearchResult := mkResult (JStr "T") (JStr "u") (JStr "s").

Definition bing_body_T : json :=
  JObj [("webPages",
         JObj [("value", JArr [JObj [("name", JStr "T"); ("url", JStr "u");
                                     ("snippet", JStr "s")]])])].

Definition google_body_T : json :=
  JObj [("items", JArr [JObj [("title", JStr "T"); ("link", JStr "u");
                              ("snippet", JStr "s")]])].

(** Bodies whose single item has no 'snippet'. *)
Definition bing_body_partial : json :=
  JObj [("webPages",
         JObj [("value", JArr [JObj [("name", JStr "T"); ("url", JStr "u")]])])].

Definition google_body_partial : json :=
  JObj [("items", JArr [JObj [("title", JStr "T"); ("link", JStr "u")]])].

Definition llm_hi : llm_result := Completion [MessageObject (Some (Some " hi "))].

(** Bing finds nothing, every time; Google finds T. *)
Definition fallback_env : Env := constant_env (ok (JObj [])) (ok google_body_T) llm_hi.

(** Bing finds T. *)
Definition bing_env : Env := constant_env (ok bing_body_T) (ok google_body_T) llm_hi.

(** Both endpoints answer 200 with an item that lacks a field. *)
Definition partial_env : Env :=
  constant_env (ok bing_body_partial) (ok google_body_partial) llm_hi.

(** No endpoint can be reached and the language model fails. *)
Definition dead_env : Env := constant_env NoResponse NoResponse LlmFailure.

(** A world whose cache holds C under "y" until time 100. *)
Definition result_C : SearchResult := mkResult (JStr "C") (JStr "c") (JStr "").

Definition cached_world : World :=
  mkWorld 10 {["y" := ([result_C], 100%N)]} [] [] [].

(** Bing cannot be reached at the first request and finds T from the second
    on. *)
Definition recovering_env : Env :=
  mkEnv
    (fun p n _ =>
       mkHttpReply 1 match p, n with
                     | Bing, O => NoResponse
                     | Bing, S _ => ok bing_body_T
                     | Google, _ => ok google_body_T
                     end)
    (fun _ _ => mkLlmReply 1 llm_hi).

(** The same cache, consulted after the entry's expiry time. *)
Definition stale_world : World :=
  mkWorld 200 {["y" := ([result_C], 100%N)]} [] [] [].

(** * Properties *)

(** ** Text *)

Lemma head_code_point_length (b0 : N) (rest : list N) :
  1 <= snd (head_code_point b0 rest) <= 4.
Proof.
  unfold head_code_point.
  repeat (cbn; match goal with
               | |- context [if ?c then _ else _] => destruct c
               | |- context [match ?l with [] => _ | _ :: _ => _ end] => destruct l
               end); cbn; lia.
Qed.

(** Cutting into code points loses no byte and never runs out of turns. *)
Lemma code_points_bytes (bytes : list N) :
  concat ((code_points bytes).*2) = bytes.
Proof.
  unfold code_points.
  assert (forall fuel (bs : list N),
             length bs <= fuel -> concat ((code_points_fuel fuel bs).*2) = bs) as H.
  { induction fuel as [|fuel IH]; intros [|b0 rest] Hlen; cbn in Hlen; try done; [lia|].
    cbn [code_points_fuel].
    pose proof (head_code_point_length b0 rest) as Hn.
    destruct (head_code_point b0 rest) as [cp n]. cbn [snd] in Hn.
    cbn [fmap list_fmap snd concat]. rewrite IH, take_drop; [done|].
    rewrite length_drop. cbn. lia. }
  by apply H.
Qed.

(** [strip] removes ASCII and other Unicode whitespace at both ends and
    nothing inside; a letter whose encoding ends in byte A0 stays whole. *)
Example py_strip_ascii :
  py_strip (String (Ascii.ascii_of_nat 9) " a b  ") = "a b".
Proof. vm_compute. reflexivity. Qed.

Example py_strip_no_break_space :
  py_strip (String (Ascii.ascii_of_nat 194) (String (Ascii.ascii_of_nat 160)
             ("hi" +:+ String (Ascii.ascii_of_nat 227) (String (Ascii.ascii_of_nat 128)
                         (String (Ascii.ascii_of_nat 128) EmptyString))))) = "hi".
Proof. vm_compute. reflexivity. Qed.

Example py_strip_keeps_letter :
  py_strip ("h" +:+ String (Ascii.ascii_of_nat 195) (String (Ascii.ascii_of_nat 160) " "))
    = "h" +:+ String (Ascii.ascii_of_nat 195) (String (Ascii.ascii_of_nat 160) EmptyString).
Proof. vm_compute. reflexivity. Qed.


(** ** The cache *)

Lemma live_lookup (query : string) (w : World) :
  live query w = true ->
  exists value expire_time,
    cache w !! query = Some (value, expire_time) /\ (now w < expire_time)%N.
Proof.
  unfold live. destruct (cache w !! query) as [[value expire_time]|] eqn:Hq; [|done].
  intros Hlt%N.ltb_lt. by exists value, expire_time.
Qed.

Lemma lookup_live (query : string) (w : World) value expire_time :
  cache w !! query = Some (value, expire_time) ->
  (now w < expire_time)%N ->
  live query w = true.
Proof. unfold live. intros -> Hlt. by apply N.ltb_lt. Qed.

Lemma lookup_expired (query : string) (w : World) value expire_time :
  cache w !! query = Some (value, expire_time) ->
  (expire_time <= now w)%N ->
  live query w = false.
Proof. unfold live. intros -> Hle. by apply N.ltb_ge. Qed.

(** ** cached_search *)

Lemma cached_search_hit (query : string) f (w : World) value expire_time :
  cache w !! query = Some (value, expire_time) ->
  (now w < expire_time)%N ->
  cached_search query f w = (inr value, w).
Proof.
  intros Hq Hlt. unfold cached_search, bind, cache_contains, cache_getitem.
  rewrite (lookup_live _ _ _ _ Hq Hlt), Hq.
  apply N.ltb_lt in Hlt. by rewrite Hlt.
Qed.

Lemma cached_search_miss_eq (query : string) f (w : World) :
  live query w = false ->
  cached_search query f w =
    match f query w with
    | (inl e, w1) => (inl e, w1)
    | (inr results, w1) =>
        (inr results, with_cache (<[query := (results, (now w1 + ttl)%N)]> (cache w1)) w1)
    end.
Proof.
  intros Hmiss. unfold cached_search, bind, cache_contains. rewrite Hmiss.
  destruct (f query w) as [[e|results] w1]; reflexivity.
Qed.

(** Whenever [cached_search] returns, it leaves a live entry holding what it
    returned. *)
Lemma cached_search_returns (query : string) f (w w1 : World) results :
  cached_search query f w = (inr results, w1) ->
  exists expire_time,
    cache w1 !! query = Some (results, expire_time) /\ (now w1 < expire_time)%N.
Proof.
  destruct (live query w) eqn:Hlive.
  - destruct (live_lookup _ _ Hlive) as (value & expire_time & Hq & Hlt).
    rewrite (cached_search_hit _ f _ _ _ Hq Hlt). intros [= <- <-]. eauto.
  - rewrite (cached_search_miss_eq _ f _ Hlive).
    destruct (f query w) as [[e|r] w0]; [done|]. intros [= <- <-].
    exists (now w0 + ttl)%N. split; [apply lookup_insert_eq|].
    cbn. unfold ttl. lia.
Qed.

(** ** The search adapters *)

(** Whatever the endpoint answers, an adapter sends exactly one request and
    blocks for as long as the request takes. *)
Lemma search_function_world (env : Env) (p : provider) (query : string) (w : World) :
  snd (search_function env p query w) =
    advance (http_took (http_get env p (length (calls p w)) query)) (log_call p query w).
Proof.
  destruct p; cbn [search_function];
    unfold search_bing, search_google, try_except, bind, requests_get,
      raise_for_status, response_json, lift, raise, ret.
  all: destruct (http_result_of _) as [|status [body|]]; cbn [fst snd is_RequestException];
    try reflexivity.
  all: destruct (_ && _); cbn [fst snd is_RequestException]; try reflexivity.
  - by destruct (bing_results body) as [[]|].
  - by destruct (google_results body) as [[]|].
Qed.

Lemma calls_log_call_same (p : provider) (query : string) (w : World) :
  calls p (log_call p query w) = calls p w ++ [query].
Proof. by destruct p. Qed.

Lemma calls_log_call_other (p p' : provider) (query : string) (w : World) :
  p <> p' -> calls p' (log_call p query w) = calls p' w.
Proof. by destruct p, p'. Qed.

Lemma search_function_calls (env : Env) (p : provider) (query : string) (w : World) :
  calls p (snd (search_function env p query w)) = calls p w ++ [query].
Proof. rewrite search_function_world. by destruct p. Qed.

Lemma search_function_calls_other (env : Env) (p p' : provider) (query : string) (w : World) :
  p <> p' -> calls p' (snd (search_function env p query w)) = calls p' w.
Proof. rewrite search_function_world. by destruct p, p'. Qed.

(** A transport failure, an error status and a body that is not JSON are all
    turned into the empty list. *)
Lemma search_function_request_failure (env : Env) (p : provider) (query : string) (w : World) :
  match http_result_of (http_get env p (length (calls p w)) query) with
  | NoResponse => True
  | Response status body => (400 <= status < 600)%N \/ body = None
  end ->
  fst (search_function env p query w) = inr [].
Proof.
  destruct p; cbn [search_function];
    unfold search_bing, search_google, try_except, bind, requests_get,
      raise_for_status, response_json, lift, raise, ret.
  all: destruct (http_result_of _) as [|status [body|]]; cbn [fst snd is_RequestException];
    try reflexivity.
  all: destruct ((400 <=? status)%N && (status <? 600)%N) eqn:Hs;
    cbn [fst snd is_RequestException]; try reflexivity.
  all: intros [[?%N.leb_le ?%N.ltb_lt]|?]; try done.
  all: apply andb_false_iff in Hs as [Hs|Hs]; congruence.
Qed.

(** ** search *)

(** One turn of each loop. *)
Lemma attempts_S (n : nat) api (query : string) (w : World) :
  attempts (S n) api query w =
    match api query w with
    | (inl e, w1) => (inl e, w1)
    | (inr results, w1) =>
        if truthy results then (inr (Some results), w1) else attempts n api query w1
    end.
Proof.
  cbn [attempts]. unfold bind.
  destruct (api query w) as [[e|results] w1]; [done|]. by destruct (truthy results).
Qed.

Lemma try_apis_cons api rest (query : string) (w : World) :
  try_apis (api :: rest) query w =
    match attempts max_retries api query w with
    | (inl e, w1) => (inl e, w1)
    | (inr (Some results), w1) => (inr results, w1)
    | (inr None, w1) => try_apis rest query w1
    end.
Proof.
  cbn [try_apis]. unfold bind.
  by destruct (attempts max_retries api query w) as [[e|[results|]] w1].
Qed.

(** Retrying against a live entry that holds the empty list finds nothing
    and touches nothing. *)
Lemma attempts_empty_entry (n : nat) f (query : string) (w : World) expire_time :
  cache w !! query = Some ([], expire_time) ->
  (now w < expire_time)%N ->
  attempts n (fun q => cached_search q f) query w = (inr None, w).
Proof.
  intros Hq Hlt. induction n as [|n IH]; [done|].
  by rewrite attempts_S, (cached_search_hit _ f _ _ _ Hq Hlt).
Qed.

Lemma try_apis_empty_entry (fs : list (string -> Py (list SearchResult)))
    (query : string) (w : World) expire_time :
  cache w !! query = Some ([], expire_time) ->
  (now w < expire_time)%N ->
  try_apis ((fun f q => cached_search q f) <$> fs) query w = (inr [], w).
Proof.
  intros Hq Hlt. induction fs as [|f fs IH]; [done|].
  cbn [fmap list_fmap]. by rewrite try_apis_cons, (attempts_empty_entry _ f _ _ _ Hq Hlt).
Qed.

(** The first attempt against the first provider decides the whole search:
    it either returns something, which is returned, or raises, or leaves a
    live empty entry that answers every later attempt. *)
Lemma search_first_attempt (env : Env) (query : string) (w : World) :
  search env query w = cached_search query (search_bing env) w.
Proof.
  unfold search, apis. rewrite try_apis_cons. unfold max_retries. rewrite attempts_S.
  destruct (cached_search query (search_bing env) w) as [[e|results] w1] eqn:Hfirst; [done|].
  destruct results as [|r results]; [|done]. cbn [truthy].
  destruct (cached_search_returns _ _ _ _ _ Hfirst) as (expire_time & Hq & Hlt).
  rewrite (attempts_empty_entry 2 (search_bing env) _ _ _ Hq Hlt).
  exact (try_apis_empty_entry [search_google env] _ _ _ Hq Hlt).
Qed.

(** A search sends at most one request, and it goes to Bing: none when the
    entry is live, one otherwise.  Google is never asked. *)
Lemma search_live_world (env : Env) (query : string) (w : World) :
  live query w = true -> snd (search env query w) = w.
Proof.
  intros (value & expire_time & Hq & Hlt)%live_lookup.
  by rewrite search_first_attempt, (cached_search_hit _ _ _ _ _ Hq Hlt).
Qed.

Lemma cached_search_miss_calls (env : Env) (p p' : provider) (query : string) (w : World) :
  live query w = false ->
  calls p' (snd (cached_search query (search_function env p) w)) =
    calls p' (snd (search_function env p query w)).
Proof.
  intros Hmiss. rewrite (cached_search_miss_eq _ _ _ Hmiss).
  destruct (search_function env p query w) as [[e|results] w1]; [done|]. by destruct p'.
Qed.

Lemma search_miss_calls (env : Env) (query : string) (w : World) :
  live query w = false ->
  bing_calls (snd (search env query w)) = bing_calls w ++ [query] /\
  google_calls (snd (search env query w)) = google_calls w.
Proof.
  intros Hmiss. rewrite search_first_attempt. split.
  - pose proof (cached_search_miss_calls env Bing Bing query w Hmiss) as H.
    rewrite search_function_calls in H. exact H.
  - pose proof (cached_search_miss_calls env Bing Google query w Hmiss) as H.
    rewrite search_function_calls_other in H by done. exact H.
Qed.

Lemma search_google_untouched (env : Env) (query : string) (w : World) :
  google_calls (snd (search env query w)) = google_calls w.
Proof.
  destruct (live query w) eqn:Hlive.
  - by rewrite search_live_world.
  - by apply search_miss_calls.
Qed.


(** When the query has no live entry and Bing's adapter returns the empty
    list, the search ends there: the empty list is cached and returned, with
    one request to Bing and none to Google, whatever Google would answer. *)
Lemma search_stops_at_first_empty (env : Env) (query : string) (w : World) :
  live query w = false ->
  fst (search_bing env query w) = inr [] ->
  fst (search env query w) = inr [] /\
  bing_calls (snd (search env query w)) = bing_calls w ++ [query] /\
  google_calls (snd (search env query w)) = google_calls w.
Proof.
  intros Hmiss Hempty. split; [|by apply search_miss_calls].
  rewrite search_first_attempt, (cached_search_miss_eq _ _ _ Hmiss).
  destruct (search_bing env query w) as [[e|r] w1]; cbn in Hempty |- *; congruence.
Qed.

(** * The claims *)

(** C1 (the code departs from it).  Scenario: nothing is cached, every Bing
    request for "x" yields no results and the Google request yields T.  The
    claim expects [search "x"] to return T after three Bing requests and one
    Google request.  The code caches Bing's first empty answer under "x",
    which then answers the two retries and all three Google attempts: the
    search returns the empty list after one Bing request and no Google
    request. *)
Theorem search_fallback_scenario :
  (forall w, fst (search_bing fallback_env "x" w) = inr []) /\
  (forall w, fst (search_google fallback_env "x" w) = inr [result_T]) /\
  fst (search fallback_env "x" empty_world) = inr [] /\
  bing_calls (snd (search fallback_env "x" empty_world)) = ["x"] /\
  google_calls (snd (search fallback_env "x" empty_world)) = [].
Proof. repeat split; intros; vm_compute; reflexivity. Qed.

(** C2 (the code departs from it).  An adapter turns a request failure into
    the empty list (see [search_function_request_failure]), but when the
    endpoint answers 200 with an item that lacks 'snippet', both
    [search_bing] and [search_google] raise [KeyError]: their handler only
    names [requests.RequestException]. *)
Theorem adapters_raise_on_missing_field :
  fst (search_bing partial_env "x" empty_world) = inl (KeyError "snippet") /\
  fst (search_google partial_env "x" empty_world) = inl (KeyError "snippet").
Proof. split; vm_compute; reflexivity. Qed.

(** C3, as stated, fails: [use] given the empty string as its question does
    not return the error string; it sends a search request and a
    chat-completion request and returns the model's answer. *)
Lemma use_empty_question_not_rejected :
  ~ (fst (use fallback_env repr_unused [""] empty_world) = inr missing_question /\
     external_calls (snd (use fallback_env repr_unused [""] empty_world)) =
       external_calls empty_world).
Proof. vm_compute. intros [[=] _]. Qed.

(** C3, amended.  [use] called with no positional argument returns the
    literal "Error: A question is required." and leaves the world as it was:
    no request to a provider, none to the language model. *)
Theorem use_without_question (env : Env) (py_repr : json -> string) (w : World) :
  use env py_repr [] w = (inr "Error: A question is required.", w).
Proof. reflexivity. Qed.

(** C4.  When the first provider's cached search (a cache hit or a fresh
    request to Bing) returns a non-empty list, [search] returns exactly
    that, in the same world, and no request has gone to Google. *)
Theorem search_first_provider_wins (env : Env) (query : string) (w : World)
    (results : list SearchResult) :
  fst (cached_search query (search_bing env) w) = inr results ->
  results <> [] ->
  search env query w = cached_search query (search_bing env) w /\
  fst (search env query w) = inr results /\
  google_calls (snd (search env query w)) = google_calls w.
Proof.
  intros Hfirst Hne. split; [apply search_first_attempt|]. split.
  - by rewrite search_first_attempt.
  - apply search_google_untouched.
Qed.

Lemma search_first_provider_wins_witness :
  search bing_env "x" empty_world = cached_search "x" (search_bing bing_env) empty_world /\
  fst (search bing_env "x" empty_world) = inr [result_T] /\
  google_calls (snd (search bing_env "x" empty_world)) = google_calls empty_world.
Proof.
  apply (search_first_provider_wins bing_env "x" empty_world [result_T]).
  - vm_compute. reflexivity.
  - discriminate.
Defined.

(** C5.  When the cache holds an unexpired entry for the query, [search]
    returns the cached list and changes nothing: no request is sent and
    nothing is raised, whatever the providers would have answered. *)
Theorem search_cache_hit (env : Env) (query : string) (w : World)
    (value : list SearchResult) (expire_time : N) :
  cache w !! query = Some (value, expire_time) ->
  (now w < expire_time)%N ->
  search env query w = (inr value, w).
Proof.
  intros Hq Hlt. rewrite search_first_attempt. by apply cached_search_hit with expire_time.
Qed.

Lemma search_cache_hit_witness :
  search dead_env "y" cached_world = (inr [result_C], cached_world).
Proof.
  apply (search_cache_hit dead_env "y" cached_world [result_C] 100%N).
  - vm_compute. reflexivity.
  - vm_compute. reflexivity.
Defined.

(** C6.  When the query has no live entry (absent or expired),
    [cached_search] sends exactly one request through the provider's search
    function, and if that function returns, the returned list, empty or
    not, is stored under the query with an expiry 7 days (604800 seconds)
    after the call came back, and is returned. *)
Theorem cached_search_miss (env : Env) (p : provider) (query : string) (w : World) :
  live query w = false ->
  calls p (snd (cached_search query (search_function env p) w)) = calls p w ++ [query] /\
  forall (f : string -> Py (list SearchResult)) (results : list SearchResult) (w1 : World),
    f query w = (inr results, w1) ->
    cached_search query f w =
      (inr results,
       with_cache (<[query := (results, (now w1 + 7 * 24 * 60 * 60)%N)]> (cache w1)) w1).
Proof.
  intros Hmiss. split.
  - rewrite (cached_search_miss_calls env p p query w Hmiss).
    apply search_function_calls.
  - intros f results w1 Hf. by rewrite (cached_search_miss_eq _ f _ Hmiss), Hf.
Qed.

Lemma cached_search_miss_witness :
  calls Bing (snd (cached_search "x" (search_bing fallback_env) empty_world)) = ["x"] /\
  cached_search "x" (search_bing fallback_env) empty_world =
    (inr [], with_cache {["x" := ([], 604801%N)]} (mkWorld 1 ∅ ["x"] [] [])).
Proof.
  destruct (cached_search_miss fallback_env Bing "x" empty_world) as [Hcalls Hstore].
  - vm_compute. reflexivity.
  - split; [exact Hcalls|].
    apply (Hstore (search_bing fallback_env) [] (mkWorld 1 ∅ ["x"] [] [])).
    vm_compute. reflexivity.
Defined.





(** C8.  An entry at or past its expiry time is a miss: the membership test
    answers False without raising, and a search for that query sends a
    fresh request to the first provider and returns what that request
    gives, not the stale value. *)
Theorem expired_entry_is_miss (env : Env) (query : string) (w : World)
    (value : list SearchResult) (expire_time : N) :
  cache w !! query = Some (value, expire_time) ->
  (expire_time <= now w)%N ->
  cache_contains query w = (inr false, w) /\
  bing_calls (snd (search env query w)) = bing_calls w ++ [query] /\
  fst (search env query w) = fst (search_bing env query w).
Proof.
  intros Hq Hle. pose proof (lookup_expired _ _ _ _ Hq Hle) as Hmiss. split; [|split].
  - unfold cache_contains. by rewrite Hmiss.
  - by apply search_miss_calls.
  - rewrite search_first_attempt, (cached_search_miss_eq _ _ _ Hmiss).
    by destruct (search_bing env query w) as [[e|r] w1].
Qed.

Lemma expired_entry_is_miss_witness :
  cache_contains "y" stale_world = (inr false, stale_world) /\
  bing_calls (snd (search bing_env "y" stale_world)) = bing_calls stale_world ++ ["y"] /\
  fst (search bing_env "y" stale_world) = fst (search_bing bing_env "y" stale_world).
Proof.
  apply (expired_entry_is_miss bing_env "y" stale_world [result_C] 100%N).
  - vm_compute. reflexivity.
  - vm_compute. discriminate.
Defined.

(** C9.  [use] never raises: for every environment, argument tuple and
    world it returns a string.  In particular, when the chat-completion
    request fails, and also when the search itself raises, the string is
    "Unable to generate an answer at this time.". *)
Theorem use_never_raises (env : Env) (py_repr : json -> string)
    (args : list string) (w : World) :
  (exists answer : string, fst (use env py_repr args w) = inr answer) /\
  (forall question rest results w1,
      args = question :: rest ->
      search env question w = (inr results, w1) ->
      llm_result_of
        (chat_create env (length (llm_calls w1)) (make_prompt py_repr question results))
        = LlmFailure ->
      fst (use env py_repr args w) = inr "Unable to generate an answer at this time.") /\
  (forall question rest e w1,
      args = question :: rest ->
      search env question w = (inl e, w1) ->
      fst (use env py_repr args w) = inr "Unable to generate an answer at this time.").
Proof.
  split; [|split].
  - destruct args as [|question rest]; [by exists missing_question|].
    cbn [use]. unfold try_except.
    match goal with |- context [let (_, _) := ?body w in _] => destruct (body w) as [[e|s] w1] end.
    + by exists unable_to_answer.
    + by exists s.
  - intros question rest results w1 -> Hs Hllm.
    cbn [use]. unfold try_except, bind at 1. rewrite Hs.
    unfold bind at 1, chat_completions_create. by rewrite Hllm.
  - intros question rest e w1 -> Hs.
    cbn [use]. unfold try_except, bind at 1. by rewrite Hs.
Qed.

Lemma use_never_raises_witness :
  fst (use dead_env repr_unused ["x"] empty_world)
    = inr "Unable to generate an answer at this time.".
Proof.
  refine (proj1 (proj2 (use_never_raises dead_env repr_unused ["x"] empty_world))
            "x" [] [] (snd (search dead_env "x" empty_world)) _ _ _).
  - reflexivity.
  - vm_compute. reflexivity.
  - vm_compute. reflexivity.
Defined.

(** C10.  Every search that returns leaves, under the raw query string, an
    unexpired entry holding exactly the list it returned, the empty list
    included; an entry written by this search expires 7 days later.  From
    then on, in any world where that entry is still in place and unexpired,
    a search for the query returns the cached list and sends no request,
    whatever the providers would answer. *)
Theorem search_leaves_entry (env : Env) (query : string) (w w1 : World)
    (results : list SearchResult) :
  search env query w = (inr results, w1) ->
  exists expire_time : N,
    cache w1 !! query = Some (results, expire_time) /\
    (now w1 < expire_time)%N /\
    (live query w = false -> expire_time = (now w1 + 7 * 24 * 60 * 60)%N) /\
    forall (env' : Env) (w2 : World),
      cache w2 !! query = Some (results, expire_time) ->
      (now w2 < expire_time)%N ->
      search env' query w2 = (inr results, w2).
Proof.
  intros Hs. rewrite search_first_attempt in Hs.
  destruct (cached_search_returns _ _ _ _ _ Hs) as (expire_time & Hq & Hlt).
  exists expire_time. repeat split; try done.
  - intros Hmiss. rewrite (cached_search_miss_eq _ _ _ Hmiss) in Hs.
    destruct (search_bing env query w) as [[e|r] w0]; [done|].
    injection Hs as <- <-. cbn in Hq. rewrite lookup_insert_eq in Hq.
    by injection Hq as <-.
  - intros env' w2 Hq2 Hlt2. rewrite search_first_attempt.
    by apply cached_search_hit with expire_time.
Qed.

Lemma search_leaves_entry_witness :
  exists expire_time : N,
    cache (snd (search fallback_env "x" empty_world)) !! "x" = Some ([], expire_time) /\
    (now (snd (search fallback_env "x" empty_world)) < expire_time)%N /\
    (live "x" empty_world = false ->
     expire_time = (now (snd (search fallback_env "x" empty_world)) + 7 * 24 * 60 * 60)%N) /\
    forall (env' : Env) (w2 : World),
      cache w2 !! "x" = Some ([], expire_time) ->
      (now w2 < expire_time)%N ->
      search env' "x" w2 = (inr [], w2).
Proof.
  apply (search_leaves_entry fallback_env "x" empty_world).
  vm_compute. reflexivity.
Defined.

(** * Further properties *)

(** ** The schema mapping *)

Lemma py_subscript_raises (d : json) (key : string) (e : exn) :
  py_subscript d key = inl e -> is_RequestException e = false.
Proof.
  destruct d; cbn; try (by intros [= <-]).
  destruct (dict_lookup key fields); [done|by intros [= <-]].
Qed.

Lemma py_get_raises (d : json) (key : string) (dflt : json) (e : exn) :
  py_get d key dflt = inl e -> is_RequestException e = false.
Proof. destruct d; cbn; by intros [= <-]. Qed.

Lemma py_iter_raises (v : json) (e : exn) :
  py_iter v = inl e -> is_RequestException e = false.
Proof. destruct v; cbn; by intros [= <-]. Qed.

Lemma comprehension_raises {A B : Type} (f : A -> exn + B) (items : list A) (e : exn) :
  comprehension f items = inl e -> exists x, x ∈ items /\ f x = inl e.
Proof.
  induction items as [|x items IH]; [done|]. cbn.
  destruct (f x) as [e'|y] eqn:Hx; cbn.
  - intros [= <-]. exists x. split; [left|done].
  - destruct (comprehension f items) as [e'|ys]; cbn; [|done].
    intros [= <-]. destruct IH as (x' & Hin & Hx'); [done|].
    exists x'. split; [by right|done].
Qed.

Lemma comprehension_returns {A B : Type} (f : A -> exn + B) (items : list A) (ys : list B) :
  comprehension f items = inr ys <-> Forall2 (fun x y => f x = inr y) items ys.
Proof.
  revert ys. induction items as [|x items IH]; intros ys; cbn.
  - split; [by intros [= <-]; constructor|by intros ->%Forall2_nil_inv_l].
  - split.
    + destruct (f x) as [e|y] eqn:Hx; cbn; [done|].
      destruct (comprehension f items) as [e|ys'] eqn:Hrest; cbn; [done|].
      intros [= <-]. constructor; [done|]. by apply IH.
    + intros (y & ys' & Hx & Hrest & ->)%Forall2_cons_inv_l.
      rewrite Hx. cbn. apply IH in Hrest. by rewrite Hrest.
Qed.

Lemma ebind_raises {A B : Type} (m : exn + A) (k : A -> exn + B) (e : exn) :
  ebind m k = inl e -> m = inl e \/ exists x, m = inr x /\ k x = inl e.
Proof. destruct m as [e'|x]; cbn; [intros [= <-]; by left|right; eauto]. Qed.

Lemma bing_item_raises (item : json) (e : exn) :
  bing_item item = inl e -> is_RequestException e = false.
Proof.
  unfold bing_item.
  intros [H|(n & _ & [H|(u & _ & [H|(s & _ & [=])]%ebind_raises)]%ebind_raises)]%ebind_raises;
    by apply py_subscript_raises in H.
Qed.

Lemma google_item_raises (item : json) (e : exn) :
  google_item item = inl e -> is_RequestException e = false.
Proof.
  unfold google_item.
  intros [H|(n & _ & [H|(u & _ & [H|(s & _ & [=])]%ebind_raises)]%ebind_raises)]%ebind_raises;
    by apply py_subscript_raises in H.
Qed.

Lemma results_of_raises (p : provider) (body : json) (e : exn) :
  results_of p body = inl e -> is_RequestException e = false.
Proof.
  destruct p; cbn; unfold bing_results, google_results.
  - intros [H|(pages & _ & [H|(value & _ & [H|(items & _ & H)]%ebind_raises)]%ebind_raises)]%ebind_raises.
    + by apply py_get_raises in H.
    + by apply py_get_raises in H.
    + by apply py_iter_raises in H.
    + apply comprehension_raises in H as (x & _ & H). by apply bing_item_raises in H.
  - intros [H|(value & _ & [H|(items & _ & H)]%ebind_raises)]%ebind_raises.
    + by apply py_get_raises in H.
    + by apply py_iter_raises in H.
    + apply comprehension_raises in H as (x & _ & H). by apply google_item_raises in H.
Qed.

Lemma bing_item_returns (item : json) (r : SearchResult) :
  bing_item item = inr r <->
  py_subscript item "name" = inr (name r) /\
  py_subscript item "url" = inr (url r) /\
  py_subscript item "snippet" = inr (snippet r).
Proof.
  unfold bing_item. split.
  - destruct (py_subscript item "name") as [|n]; cbn; [done|].
    destruct (py_subscript item "url") as [|u]; cbn; [done|].
    destruct (py_subscript item "snippet") as [|s]; cbn; [done|].
    by intros [= <-].
  - intros (-> & -> & ->). cbn. by destruct r.
Qed.

Lemma google_item_returns (item : json) (r : SearchResult) :
  google_item item = inr r <->
  py_subscript item "title" = inr (name r) /\
  py_subscript item "link" = inr (url r) /\
  py_subscript item "snippet" = inr (snippet r).
Proof.
  unfold google_item. split.
  - destruct (py_subscript item "title") as [|n]; cbn; [done|].
    destruct (py_subscript item "link") as [|u]; cbn; [done|].
    destruct (py_subscript item "snippet") as [|s]; cbn; [done|].
    by intros [= <-].
  - intros (-> & -> & ->). cbn. by destruct r.
Qed.

(** With a status that is no error and a body that is JSON, the adapter's
    outcome is the schema mapping of the body, returned or raised. *)
Lemma search_function_ok (env : Env) (p : provider) (query : string) (w : World)
    (status : N) (body : json) :
  http_result_of (http_get env p (length (calls p w)) query) = Response status (Some body) ->
  status_ok status = true ->
  fst (search_function env p query w) = results_of p body.
Proof.
  unfold status_ok. intros Hreply Hok%negb_true_iff.
  destruct p; cbn [search_function results_of];
    unfold search_bing, search_google, try_except, bind, requests_get,
      raise_for_status, response_json, lift, raise, ret.
  all: rewrite Hreply; cbn [fst snd]; rewrite Hok; cbn [fst snd].
  - destruct (bing_results body) as [e|rs] eqn:Hb; [|done].
    by rewrite (results_of_raises Bing body e Hb).
  - destruct (google_results body) as [e|rs] eqn:Hb; [|done].
    by rewrite (results_of_raises Google body e Hb).
Qed.

(** ** The search adapters, continued *)

Lemma status_not_ok (status : N) :
  status_ok status = false -> (400 <= status < 600)%N.
Proof.
  unfold status_ok. intros [H1 H2]%negb_false_iff%andb_true_iff.
  apply N.leb_le in H1. apply N.ltb_lt in H2. lia.
Qed.

(** X1.  Whatever the endpoint answers, [search_bing] and [search_google]
    send exactly one request, for the query they were given, to their own
    endpoint and none to the other; they leave the cache and the language
    model alone, and the clock moves by the time the request took. *)
Theorem adapter_sends_one_request (env : Env) (p : provider) (query : string) (w : World) :
  calls p (snd (search_function env p query w)) = calls p w ++ [query] /\
  provider_calls (snd (search_function env p query w)) = S (provider_calls w) /\
  cache (snd (search_function env p query w)) = cache w /\
  llm_calls (snd (search_function env p query w)) = llm_calls w /\
  now (snd (search_function env p query w)) =
    (now w + http_took (http_get env p (length (calls p w)) query))%N.
Proof.
  rewrite search_function_world. unfold provider_calls.
  destruct p; cbn; rewrite ?length_app; cbn; repeat split; lia.
Qed.

(** X2.  When the request gets no response, or a response with a 4xx or 5xx
    status, or one whose body is not JSON, the adapter returns the empty
    list. *)
Theorem adapter_swallows_request_errors (env : Env) (p : provider) (query : string)
    (w : World) :
  http_result_of (http_get env p (length (calls p w)) query) = NoResponse \/
  (exists status body,
      http_result_of (http_get env p (length (calls p w)) query) = Response status body /\
      (status_ok status = false \/ body = None)) ->
  fst (search_function env p query w) = inr [].
Proof.
  intros H. apply search_function_request_failure.
  destruct H as [H|(status & body & H & [Hs|Hb])]; rewrite H; [done| |by right].
  left. by apply status_not_ok.
Qed.

Lemma adapter_swallows_request_errors_witness :
  fst (search_function dead_env Google "x" empty_world) = inr [].
Proof.
  apply (adapter_swallows_request_errors dead_env Google "x" empty_world).
  left. vm_compute. reflexivity.
Defined.

(** X3.  When Bing answers with a status that is no error and a JSON object
    whose 'webPages' is an object whose 'value' is a list, [search_bing]
    returns a list exactly when every item of 'value' is an object with
    'name', 'url' and 'snippet'; the list then has one result per item, in
    order, carrying those three values. *)
Theorem search_bing_maps_items (env : Env) (query : string) (w : World) (status : N)
    (fields pages : list (string * json)) (items : list json) :
  http_result_of (http_get env Bing (length (bing_calls w)) query)
    = Response status (Some (JObj fields)) ->
  status_ok status = true ->
  dict_lookup "webPages" fields = Some (JObj pages) ->
  dict_lookup "value" pages = Some (JArr items) ->
  forall results : list SearchResult,
    fst (search_bing env query w) = inr results <->
    Forall2 (fun item r =>
               py_subscript item "name" = inr (name r) /\
               py_subscript item "url" = inr (url r) /\
               py_subscript item "snippet" = inr (snippet r)) items results.
Proof.
  intros Hreply Hok Hpages Hvalue results.
  pose proof (search_function_ok env Bing query w status (JObj fields) Hreply Hok) as Hmap.
  cbn [search_function] in Hmap. rewrite Hmap.
  cbn [results_of]. unfold bing_results, py_get at 1. rewrite Hpages. cbn.
  rewrite Hvalue. cbn.
  rewrite comprehension_returns.
  split; intros H; (eapply Forall2_impl; [exact H|]); intros item r; apply bing_item_returns.
Qed.

Lemma search_bing_maps_items_witness :
  fst (search_bing bing_env "x" empty_world) = inr [result_T] <->
  Forall2 (fun item r =>
             py_subscript item "name" = inr (name r) /\
             py_subscript item "url" = inr (url r) /\
             py_subscript item "snippet" = inr (snippet r))
    [JObj [("name", JStr "T"); ("url", JStr "u"); ("snippet", JStr "s")]] [result_T].
Proof.
  apply (search_bing_maps_items bing_env "x" empty_world 200
           [("webPages",
             JObj [("value", JArr [JObj [("name", JStr "T"); ("url", JStr "u");
                                         ("snippet", JStr "s")]])])]
           [("value", JArr [JObj [("name", JStr "T"); ("url", JStr "u");
                                  ("snippet", JStr "s")]])]).
  - vm_compute. reflexivity.
  - vm_compute. reflexivity.
  - vm_compute. reflexivity.
  - vm_compute. reflexivity.
Defined.

(** X4.  When Google answers with a status that is no error and a JSON
    object whose 'items' is a list, [search_google] returns a list exactly
    when every item is an object with 'title', 'link' and 'snippet'; the
    list then has one result per item, in order, with 'title' under 'name'
    and 'link' under 'url'. *)
Theorem search_google_maps_items (env : Env) (query : string) (w : World) (status : N)
    (fields : list (string * json)) (items : list json) :
  http_result_of (http_get env Google (length (google_calls w)) query)
    = Response status (Some (JObj fields)) ->
  status_ok status = true ->
  dict_lookup "items" fields = Some (JArr items) ->
  forall results : list SearchResult,
    fst (search_google env query w) = inr results <->
    Forall2 (fun item r =>
               py_subscript item "title" = inr (name r) /\
               py_subscript item "link" = inr (url r) /\
               py_subscript item "snippet" = inr (snippet r)) items results.
Proof.
  intros Hreply Hok Hitems results.
  pose proof (search_function_ok env Google query w status (JObj fields) Hreply Hok) as Hmap.
  cbn [search_function] in Hmap. rewrite Hmap.
  cbn [results_of]. unfold google_results, py_get. rewrite Hitems. cbn.
  rewrite comprehension_returns.
  split; intros H; (eapply Forall2_impl; [exact H|]); intros item r; apply google_item_returns.
Qed.

Lemma search_google_maps_items_witness :
  fst (search_google bing_env "x" empty_world) = inr [result_T] <->
  Forall2 (fun item r =>
             py_subscript item "title" = inr (name r) /\
             py_subscript item "link" = inr (url r) /\
             py_subscript item "snippet" = inr (snippet r))
    [JObj [("title", JStr "T"); ("link", JStr "u"); ("snippet", JStr "s")]] [result_T].
Proof.
  apply (search_google_maps_items bing_env "x" empty_world 200
           [("items", JArr [JObj [("title", JStr "T"); ("link", JStr "u");
                                  ("snippet", JStr "s")]])]).
  - vm_compute. reflexivity.
  - vm_compute. reflexivity.
  - vm_compute. reflexivity.
Defined.

(** X5.  When the answer is a JSON object that lacks the collection the
    adapter reads ('webPages', or 'value' inside it, for Bing; 'items' for
    Google), the adapter returns the empty list. *)
Theorem adapter_missing_collection (env : Env) (p : provider) (query : string) (w : World)
    (status : N) (fields : list (string * json)) :
  http_result_of (http_get env p (length (calls p w)) query)
    = Response status (Some (JObj fields)) ->
  status_ok status = true ->
  match p with
  | Bing =>
      dict_lookup "webPages" fields = None \/
      exists pages,
        dict_lookup "webPages" fields = Some (JObj pages) /\ dict_lookup "value" pages = None
  | Google => dict_lookup "items" fields = None
  end ->
  fst (search_function env p query w) = inr [].
Proof.
  intros Hreply Hok Hmissing.
  rewrite (search_function_ok env p query w status (JObj fields) Hreply Hok).
  destruct p; cbn [results_of]; unfold bing_results, google_results, py_get at 1.
  - destruct Hmissing as [->|(pages & -> & Hvalue)]; cbn; [done|]. by rewrite Hvalue.
  - by rewrite Hmissing.
Qed.

Lemma adapter_missing_collection_witness :
  fst (search_function fallback_env Bing "x" empty_world) = inr [].
Proof.
  apply (adapter_missing_collection fallback_env Bing "x" empty_world 200 []).
  - vm_compute. reflexivity.
  - vm_compute. reflexivity.
  - left. vm_compute. reflexivity.
Defined.

(** X6.  An adapter raises only when the endpoint answered with a status
    that is no error and a JSON body that the schema mapping cannot read;
    what it raises is the mapping's exception, never a
    [requests.RequestException]. *)
Theorem adapter_raises_only_on_bad_shape (env : Env) (p : provider) (query : string)
    (w : World) (e : exn) :
  fst (search_function env p query w) = inl e ->
  is_RequestException e = false /\
  exists status body,
    http_result_of (http_get env p (length (calls p w)) query) = Response status (Some body) /\
    status_ok status = true /\
    results_of p body = inl e.
Proof.
  intros Hraise.
  pose proof (search_function_request_failure env p query w) as Hempty.
  destruct (http_result_of (http_get env p (length (calls p w)) query))
    as [|status [body|]] eqn:Hreply.
  - rewrite Hempty in Hraise; done.
  - destruct (status_ok status) eqn:Hok.
    + rewrite (search_function_ok env p query w status body Hreply Hok) in Hraise.
      split; [by apply results_of_raises with p body|]. by exists status, body.
    + rewrite Hempty in Hraise; [done|]. left. by apply status_not_ok.
  - rewrite Hempty in Hraise; [done|]. by right.
Qed.

Lemma adapter_raises_only_on_bad_shape_witness :
  is_RequestException (KeyError "snippet") = false /\
  exists status body,
    http_result_of (http_get partial_env Bing (length (calls Bing empty_world)) "x")
      = Response status (Some body) /\
    status_ok status = true /\
    results_of Bing body = inl (KeyError "snippet").
Proof.
  apply (adapter_raises_only_on_bad_shape partial_env Bing "x" empty_world).
  vm_compute. reflexivity.
Defined.

(** ** search, continued *)

Lemma search_miss_world (env : Env) (query : string) (w : World) :
  live query w = false ->
  snd (search env query w) =
    match search_bing env query w with
    | (inl _, w1) => w1
    | (inr results, w1) =>
        with_cache (<[query := (results, (now w1 + ttl)%N)]> (cache w1)) w1
    end.
Proof.
  intros Hmiss. rewrite search_first_attempt, (cached_search_miss_eq _ _ _ Hmiss).
  by destruct (search_bing env query w) as [[e|r] w1].
Qed.

Lemma live_stays_false (query : string) (w w1 : World) :
  live query w = false ->
  cache w1 = cache w ->
  (now w <= now w1)%N ->
  live query w1 = false.
Proof.
  unfold live. intros Hmiss -> Hle.
  destruct (cache w !! query) as [[value expire_time]|]; [|done].
  apply N.ltb_ge in Hmiss. apply N.ltb_ge. lia.
Qed.

Lemma search_sends_nothing_to_llm (env : Env) (query : string) (w : World) :
  llm_calls (snd (search env query w)) = llm_calls w.
Proof.
  destruct (live query w) eqn:Hlive; [by rewrite search_live_world|].
  rewrite (search_miss_world _ _ _ Hlive).
  pose proof (search_function_world env Bing query w) as Hw. cbn [search_function] in Hw.
  by destruct (search_bing env query w) as [[e|r] w1]; cbn [snd] in Hw; subst w1.
Qed.

(** X7.  A search never sends a request to Google and never to the language
    model.  It sends one request to Bing, for the query, when the query has
    no live entry, and none otherwise; the clock never goes back. *)
Theorem search_sends_at_most_one_request (env : Env) (query : string) (w : World) :
  google_calls (snd (search env query w)) = google_calls w /\
  bing_calls (snd (search env query w)) =
    bing_calls w ++ (if live query w then [] else [query]) /\
  llm_calls (snd (search env query w)) = llm_calls w /\
  (now w <= now (snd (search env query w)))%N.
Proof.
  split; [apply search_google_untouched|].
  destruct (live query w) eqn:Hlive.
  - rewrite search_live_world by done. rewrite app_nil_r. repeat split; lia.
  - split; [by apply search_miss_calls|].
    rewrite (search_miss_world _ _ _ Hlive).
    pose proof (search_function_world env Bing query w) as Hw. cbn [search_function] in Hw.
    destruct (search_bing env query w) as [[e|r] w1]; cbn [snd] in Hw; subst w1; cbn;
      (split; [done|lia]).
Qed.

(** X8.  A search touches no cache entry but the one of its own query:
    every other key holds afterwards what it held before. *)
Theorem search_keeps_other_entries (env : Env) (query other : string) (w : World) :
  other <> query ->
  cache (snd (search env query w)) !! other = cache w !! other.
Proof.
  intros Hne. destruct (live query w) eqn:Hlive.
  - by rewrite search_live_world.
  - rewrite (search_miss_world _ _ _ Hlive).
    pose proof (search_function_world env Bing query w) as Hw. cbn [search_function] in Hw.
    destruct (search_bing env query w) as [[e|r] w1]; cbn [snd] in Hw; subst w1; cbn; [done|].
    by rewrite lookup_insert_ne.
Qed.

Lemma search_keeps_other_entries_witness :
  cache (snd (search bing_env "x" cached_world)) !! "y" = cache cached_world !! "y".
Proof.
  apply (search_keeps_other_entries bing_env "x" "y" cached_world).
  discriminate.
Defined.

(** X9.  When a search raises, the query had no live entry, the exception
    is the one Bing's adapter raised on a body it could not read, and
    nothing has been cached: the cache is as before, the query still has no
    live entry, and the next search for it sends Bing another request. *)
Theorem search_exception_not_cached (env : Env) (query : string) (w w1 : World) (e : exn) :
  search env query w = (inl e, w1) ->
  live query w = false /\
  fst (search_bing env query w) = inl e /\
  is_RequestException e = false /\
  cache w1 = cache w /\
  live query w1 = false /\
  bing_calls (snd (search env query w1)) = bing_calls w ++ [query; query].
Proof.
  intros Hs.
  assert (live query w = false) as Hmiss.
  { destruct (live query w) eqn:Hlive; [|done].
    destruct (live_lookup _ _ Hlive) as (value & expire_time & Hq & Hlt).
    rewrite search_first_attempt, (cached_search_hit _ _ _ _ _ Hq Hlt) in Hs. done. }
  rewrite search_first_attempt, (cached_search_miss_eq _ _ _ Hmiss) in Hs.
  pose proof (search_function_world env Bing query w) as Hw. cbn [search_function] in Hw.
  pose proof (results_of_raises Bing) as Hmap.
  destruct (search_bing env query w) as [[e'|r] w0] eqn:Hbing; [|done].
  injection Hs as -> ->. cbn [snd] in Hw. subst w1.
  assert (live query (advance (http_took (http_get env Bing (length (calls Bing w)) query))
                        (log_call Bing query w)) = false) as Hmiss'.
  { apply live_stays_false with w; [done|done|cbn; lia]. }
  repeat split; try done.
  - pose proof (search_function_request_failure env Bing query w) as Hempty.
    pose proof (search_function_ok env Bing query w) as Hok.
    cbn [search_function] in Hempty, Hok. rewrite Hbing in Hempty, Hok. cbn [fst] in Hempty, Hok.
    destruct (http_result_of (http_get env Bing (length (calls Bing w)) query))
      as [|status [body|]]; [by discriminate Hempty| |discriminate Hempty; by right].
    destruct (status_ok status) eqn:Hstatus.
    + apply (Hmap body). by rewrite <- (Hok status body).
    + discriminate Hempty. left. by apply status_not_ok.
  - destruct (search_miss_calls env query _ Hmiss') as [-> _]. cbn.
    by rewrite <- app_assoc.
Qed.

Lemma search_exception_not_cached_witness :
  live "x" empty_world = false /\
  fst (search_bing partial_env "x" empty_world) = inl (KeyError "snippet") /\
  is_RequestException (KeyError "snippet") = false /\
  cache (snd (search partial_env "x" empty_world)) = cache empty_world /\
  live "x" (snd (search partial_env "x" empty_world)) = false /\
  bing_calls (snd (search partial_env "x" (snd (search partial_env "x" empty_world))))
    = bing_calls empty_world ++ ["x"; "x"].
Proof.
  apply (search_exception_not_cached partial_env "x" empty_world).
  vm_compute. reflexivity.
Defined.

(** ** use, continued *)

(** The world that [use] leaves: the one the search left, followed, when the
    search returned, by one chat-completion request. *)
Lemma use_world (env : Env) (py_repr : json -> string) (question : string)
    (rest : list string) (w : World) :
  snd (use env py_repr (question :: rest) w) =
    match search env question w with
    | (inr results, w1) =>
        let prompt := make_prompt py_repr question results in
        advance (llm_took (chat_create env (length (llm_calls w1)) prompt)) (log_llm prompt w1)
    | (inl _, w1) => w1
    end.
Proof.
  cbn [use]. unfold try_except, bind at 1.
  destruct (search env question w) as [[e|results] w1]; [done|].
  unfold bind at 1, chat_completions_create.
  destruct (llm_result_of _) as [|[|[[[s|]|]|[[s|]|]] choices]]; reflexivity.
Qed.

(** X10.  [use] with a question sends the requests of the search for that
    question and then, when the search returned, exactly one chat-completion
    request whose prompt is built from the question and the results found;
    when the search raised, it sends none.  Further positional arguments
    change nothing. *)
Theorem use_sends_one_prompt (env : Env) (py_repr : json -> string) (question : string)
    (rest : list string) (w : World) :
  bing_calls (snd (use env py_repr (question :: rest) w))
    = bing_calls (snd (search env question w)) /\
  google_calls (snd (use env py_repr (question :: rest) w)) = google_calls w /\
  cache (snd (use env py_repr (question :: rest) w)) = cache (snd (search env question w)) /\
  llm_calls (snd (use env py_repr (question :: rest) w)) =
    llm_calls w ++ match fst (search env question w) with
                   | inr results => [make_prompt py_repr question results]
                   | inl _ => []
                   end /\
  use env py_repr (question :: rest) w = use env py_repr [question] w.
Proof.
  rewrite use_world.
  pose proof (search_google_untouched env question w) as Hg.
  pose proof (search_sends_nothing_to_llm env question w) as Hl.
  destruct (search env question w) as [[e|results] w1]; cbn in *.
  - rewrite app_nil_r. by repeat split.
  - rewrite Hl. by repeat split.
Qed.

(** X11.  What [use] answers once the search has returned depends only on
    the first choice of the completion: a string content, in a dict or in an
    object, is returned stripped; a message without content gives "Unable to
    parse the response format."; a failed request, a completion without
    choices and a content that is [None] give "Unable to generate an answer
    at this time.". *)
Theorem use_answer (env : Env) (py_repr : json -> string) (question : string)
    (rest : list string) (w w1 : World) (results : list SearchResult) :
  search env question w = (inr results, w1) ->
  fst (use env py_repr (question :: rest) w) =
    inr match llm_result_of
                (chat_create env (length (llm_calls w1))
                   (make_prompt py_repr question results)) with
        | Completion (MessageDict (Some (Some s)) :: _)
        | Completion (MessageObject (Some (Some s)) :: _) => py_strip s
        | Completion (MessageDict None :: _)
        | Completion (MessageObject None :: _) => unparsable
        | _ => unable_to_answer
        end.
Proof.
  intros Hs. cbn [use]. unfold try_except, bind at 1. rewrite Hs.
  unfold bind at 1, chat_completions_create.
  destruct (llm_result_of _) as [|[|[[[s|]|]|[[s|]|]] choices]]; reflexivity.
Qed.

Lemma use_answer_witness :
  fst (use fallback_env repr_unused ["x"] empty_world) = inr "hi".
Proof.
  apply (use_answer fallback_env repr_unused "x" [] empty_world
           (snd (search fallback_env "x" empty_world)) []).
  vm_compute. reflexivity.
Defined.

(** X12.  When the question has a live cache entry, [use] contacts no
    provider and leaves the cache alone; it sends the language model one
    prompt, built from the question and the cached results. *)
Theorem use_cached_question (env : Env) (py_repr : json -> string) (question : string)
    (rest : list string) (w : World) (value : list SearchResult) (expire_time : N) :
  cache w !! question = Some (value, expire_time) ->
  (now w < expire_time)%N ->
  provider_calls (snd (use env py_repr (question :: rest) w)) = provider_calls w /\
  cache (snd (use env py_repr (question :: rest) w)) = cache w /\
  llm_calls (snd (use env py_repr (question :: rest) w)) =
    llm_calls w ++ [make_prompt py_repr question value].
Proof.
  intros Hq Hlt. rewrite use_world, search_first_attempt.
  by rewrite (cached_search_hit _ _ _ _ _ Hq Hlt).
Qed.

Lemma use_cached_question_witness :
  provider_calls (snd (use dead_env repr_unused ["y"] cached_world))
    = provider_calls cached_world /\
  cache (snd (use dead_env repr_unused ["y"] cached_world)) = cache cached_world /\
  llm_calls (snd (use dead_env repr_unused ["y"] cached_world)) =
    llm_calls cached_world ++ [make_prompt repr_unused "y" [result_C]].
Proof.
  apply (use_cached_question dead_env repr_unused "y" [] cached_world [result_C] 100%N).
  - vm_compute. reflexivity.
  - vm_compute. reflexivity.
Defined.

(** ** add_website_content *)

Lemma dict_lookup_app (key : string) (fields more : list (string * json)) :
  dict_lookup key (fields ++ more) =
    match dict_lookup key more with
    | Some v => Some v
    | None => dict_lookup key fields
    end.
Proof.
  induction fields as [|[k v] fields IH]; cbn; [by destruct (dict_lookup key more)|].
  rewrite IH. by destruct (dict_lookup key more).
Qed.

Lemma dict_lookup_replace_eq (key : string) (value : json) (fields : list (string * json)) :
  dict_lookup key
    ((fun kv => if String.eqb kv.1 key then (kv.1, value) else kv) <$> fields)
    = if existsb (fun kv => String.eqb kv.1 key) fields then Some value else None.
Proof.
  induction fields as [|[k v] fields IH]; cbn; [done|].
  rewrite IH. destruct (String.eqb k key) eqn:Hk; cbn; rewrite Hk;
    by destruct (existsb _ fields).
Qed.

Lemma dict_lookup_replace_ne (key other : string) (value : json)
    (fields : list (string * json)) :
  other <> key ->
  dict_lookup other
    ((fun kv => if String.eqb kv.1 key then (kv.1, value) else kv) <$> fields)
    = dict_lookup other fields.
Proof.
  intros Hne. induction fields as [|[k v] fields IH]; cbn; [done|].
  rewrite IH. destruct (String.eqb_spec k key) as [->|]; cbn; [|done].
  destruct (dict_lookup other fields); [done|].
  destruct (String.eqb_spec key other) as [->|]; done.
Qed.

(** Item assignment, then item access. *)
Lemma dict_lookup_set_eq (key : string) (value : json) (fields : list (string * json)) :
  dict_lookup key (dict_set key value fields) = Some value.
Proof.
  unfold dict_set. destruct (existsb _ fields) eqn:Hin.
  - by rewrite dict_lookup_replace_eq, Hin.
  - rewrite dict_lookup_app. cbn. by rewrite String.eqb_refl.
Qed.

Lemma dict_lookup_set_ne (key other : string) (value : json) (fields : list (string * json)) :
  other <> key ->
  dict_lookup other (dict_set key value fields) = dict_lookup other fields.
Proof.
  intros Hne. unfold dict_set. destruct (existsb _ fields).
  - by apply dict_lookup_replace_ne.
  - rewrite dict_lookup_app. cbn.
    destruct (String.eqb_spec key other) as [->|]; done.
Qed.

(** X13.  For a result that has a 'url': when the extraction returns,
    [add_website_content] hands back the result with 'content' set to what
    was extracted and every other key as it was; when the extraction
    raises, it hands back the result unchanged and raises nothing. *)
Theorem add_website_content_with_url (extract : json -> exn + json)
    (result : list (string * json)) (u : json) :
  dict_lookup "url" result = Some u ->
  match extract u with
  | inr content =>
      exists enriched,
        add_website_content extract result = inr enriched /\
        dict_lookup "content" enriched = Some content /\
        forall key, key <> "content" -> dict_lookup key enriched = dict_lookup key result
  | inl _ => add_website_content extract result = inr result
  end.
Proof.
  intros Hurl. unfold add_website_content, py_subscript. rewrite Hurl. cbn.
  destruct (extract u) as [e|content]; cbn; [done|].
  exists (dict_set "content" content result). split; [done|]. split.
  - apply dict_lookup_set_eq.
  - intros key Hne. by apply dict_lookup_set_ne.
Qed.

Lemma add_website_content_with_url_witness :
  exists enriched,
    add_website_content (fun _ => inr (JStr "text")) [("name", JStr "T"); ("url", JStr "u")]
      = inr enriched /\
    dict_lookup "content" enriched = Some (JStr "text") /\
    forall key, key <> "content" ->
      dict_lookup key enriched = dict_lookup key [("name", JStr "T"); ("url", JStr "u")].
Proof.
  apply (add_website_content_with_url (fun _ => inr (JStr "text"))
           [("name", JStr "T"); ("url", JStr "u")] (JStr "u")).
  vm_compute. reflexivity.
Defined.

(** X14.  For a result without 'url', [add_website_content] raises
    [KeyError]: the lookup fails inside the [try], and the handler's message
    looks the key up again. *)
Theorem add_website_content_without_url (extract : json -> exn + json)
    (result : list (string * json)) :
  dict_lookup "url" result = None ->
  add_website_content extract result = inl (KeyError "url").
Proof.
  intros Hurl. unfold add_website_content, py_subscript. by rewrite Hurl.
Qed.

Lemma add_website_content_without_url_witness :
  add_website_content (fun _ => inr JNull) [("name", JStr "T")] = inl (KeyError "url").
Proof.
  apply (add_website_content_without_url (fun _ => inr JNull) [("name", JStr "T")]).
  vm_compute. reflexivity.
Defined.

(** ** LLMClient *)

(** X15.  [LLMClient.query] sends exactly one request, carrying the prompt.
    It returns only when the first choice is a message object whose content
    is a string, and then returns that string stripped; in every other case
    (failed request, no choice, a dict message, no content, content [None])
    it raises the exception that wraps the cause. *)
Theorem query_returns_or_wraps (create : nat -> string -> llm_reply) (prompt : string)
    (w : World) :
  snd (LLMClient.query create prompt w) =
    advance (llm_took (create (length (llm_calls w)) prompt)) (log_llm prompt w) /\
  match fst (LLMClient.query create prompt w) with
  | inr answer =>
      exists s rest,
        llm_result_of (create (length (llm_calls w)) prompt)
          = Completion (MessageObject (Some (Some s)) :: rest) /\
        answer = py_strip s
  | inl (LLMQueryFailed _) =>
      forall s rest,
        llm_result_of (create (length (llm_calls w)) prompt)
          <> Completion (MessageObject (Some (Some s)) :: rest)
  | inl ValueError => False
  end.
Proof.
  unfold LLMClient.query.
  destruct (llm_result_of _) as [|[|[[[s|]|]|[[s|]|]] choices]]; cbn; split; try done.
  by exists s, choices.
Qed.

(** X16.  [LLMClient] is constructed exactly when the [api_key] argument or,
    failing that, the environment variable GROQ_API_KEY is a non-empty
    string.  A non-empty argument wins; an empty or absent argument falls
    back to the variable; otherwise the constructor raises [ValueError]. *)
Theorem init_key_choice (api_key : option string) (model : string)
    (groq_api_key : option string) :
  match LLMClient.init api_key model groq_api_key with
  | inr client =>
      LLMClient.model client = model /\
      LLMClient.api_key client <> "" /\
      Some (LLMClient.api_key client) = (if truthy_key api_key then api_key else groq_api_key)
  | inl e =>
      e = ValueError /\ truthy_key api_key = false /\ truthy_key groq_api_key = false
  end.
Proof.
  unfold LLMClient.init.
  destruct api_key as [[|c k]|], groq_api_key as [[|c' k']|]; cbn; done.
Qed.

(** ** Across calls *)

(** X17.  An empty search is remembered across calls of [use].  When the
    question has no live entry and Bing's adapter finds nothing (for any
    reason, a failed request included), [use] asks the language model with
    an empty source list; a second [use] for the same question, as long as
    the first completion and the delay in between took less than 7 days,
    contacts no provider, whatever the providers would now answer, and asks
    the language model with an empty source list again. *)
Theorem use_remembers_empty_search (env : Env) (py_repr : json -> string)
    (question : string) (rest : list string) (w : World) (dt : N) :
  live question w = false ->
  fst (search_bing env question w) = inr [] ->
  (llm_took (chat_create env (length (llm_calls w)) (make_prompt py_repr question [])) + dt
     < 7 * 24 * 60 * 60)%N ->
  provider_calls (snd (use env py_repr (question :: rest) w)) = S (provider_calls w) /\
  provider_calls
    (snd (use env py_repr (question :: rest)
            (advance dt (snd (use env py_repr (question :: rest) w)))))
    = S (provider_calls w) /\
  llm_calls
    (snd (use env py_repr (question :: rest)
            (advance dt (snd (use env py_repr (question :: rest) w)))))
    = llm_calls w ++ [make_prompt py_repr question []; make_prompt py_repr question []].
Proof.
  intros Hmiss Hempty Hdt.
  pose proof (search_function_world env Bing question w) as Hwb. cbn [search_function] in Hwb.
  assert (exists wb,
             search env question w =
               (inr [], with_cache (<[question := ([], (now wb + ttl)%N)]> (cache wb)) wb) /\
             wb = advance (http_took (http_get env Bing (length (calls Bing w)) question))
                    (log_call Bing question w)) as (wb & Hs & Hwb').
  { rewrite search_first_attempt, (cached_search_miss_eq _ _ _ Hmiss).
    destruct (search_bing env question w) as [[e|r] wb]; cbn in Hempty, Hwb; [done|].
    injection Hempty as ->. by exists wb. }
  rewrite !use_world, Hs. cbn zeta.
  set (prompt := make_prompt py_repr question []) in *.
  assert (llm_calls wb = llm_calls w) as Hllm by (by subst wb).
  assert (provider_calls wb = S (provider_calls w)) as Hcalls.
  { subst wb. unfold provider_calls. cbn. rewrite length_app. cbn. lia. }
  set (w1 := advance dt _).
  assert (cache w1 !! question = Some ([], (now wb + ttl)%N)) as Hq.
  { subst w1. cbn. apply lookup_insert_eq. }
  assert (now w1 < now wb + ttl)%N as Hlt.
  { subst w1. cbn. rewrite Hllm. unfold ttl. lia. }
  rewrite search_first_attempt, (cached_search_hit _ _ _ _ _ Hq Hlt). cbn zeta.
  subst w1. unfold provider_calls in *. cbn. rewrite Hllm.
  repeat split; [done|done|]. by rewrite <- app_assoc.
Qed.

Lemma use_remembers_empty_search_witness :
  provider_calls (snd (use recovering_env repr_unused ["x"] empty_world))
    = S (provider_calls empty_world) /\
  provider_calls
    (snd (use recovering_env repr_unused ["x"]
            (advance 3600 (snd (use recovering_env repr_unused ["x"] empty_world)))))
    = S (provider_calls empty_world) /\
  llm_calls
    (snd (use recovering_env repr_unused ["x"]
            (advance 3600 (snd (use recovering_env repr_unused ["x"] empty_world)))))
    = llm_calls empty_world
        ++ [make_prompt repr_unused "x" []; make_prompt repr_unused "x" []].
Proof.
  apply (use_remembers_empty_search recovering_env repr_unused "x" [] empty_world 3600).
  - vm_compute. reflexivity.
  - vm_compute. reflexivity.
  - vm_compute. reflexivity.
Defined.

(** ** cached_search, continued *)

(** X18.  [cached_search] raises exactly when the query has no live entry
    and the search function it was given raises; the exception is that
    function's, and the world is as that function left it, so nothing has
    been stored.  A live entry is never a reason to raise. *)
Theorem cached_search_raises (query : string) (f : string -> Py (list SearchResult))
    (w w1 : World) (e : exn) :
  cached_search query f w = (inl e, w1) <->
  live query w = false /\ f query w = (inl e, w1).
Proof.
  split.
  - destruct (live query w) eqn:Hlive.
    + destruct (live_lookup _ _ Hlive) as (value & expire_time & Hq & Hlt).
      by rewrite (cached_search_hit _ f _ _ _ Hq Hlt).
    + rewrite (cached_search_miss_eq _ f _ Hlive).
      destruct (f query w) as [[e'|r] w0]; [|done]. by intros [= -> ->].
  - intros [Hmiss Hf]. by rewrite (cached_search_miss_eq _ f _ Hmiss), Hf.
Qed.
